(** * A shallow embedding of the adctest page-object toolkit

    The Python sources live under [src/adctest].  Each module below
    embeds one group of functions, named as in the source; the theorems
    about them follow the definitions at the end of the file. *)

From Stdlib Require Import Ascii String ZArith Lia Bool.
From stdpp Require Import base gmap list strings.

Open Scope string_scope.

(** ** Shared Python helpers *)
Module Py.

(** A double quote character, used when rendering f-strings that
    contain one. *)
Definition dq : string := String (ascii_of_nat 34) EmptyString.

(** A character of a string is one code point below 256.  [str.isspace]
    on that range: [\t\n\v\f\r], the separators [\x1c]-[\x1f], the
    space, [\x85] and the no-break space [\xa0]. *)
Definition is_space (c : ascii) : bool :=
  let n := nat_of_ascii c in
  ((9 <=? n)%nat && (n <=? 13)%nat) || ((28 <=? n)%nat && (n <=? 32)%nat) ||
  (n =? 133)%nat || (n =? 160)%nat.

Definition is_digit (c : ascii) : bool :=
  let n := nat_of_ascii c in ((48 <=? n)%nat && (n <=? 57)%nat).

Definition is_upper (c : ascii) : bool :=
  let n := nat_of_ascii c in ((65 <=? n)%nat && (n <=? 90)%nat).

Definition is_lower (c : ascii) : bool :=
  let n := nat_of_ascii c in ((97 <=? n)%nat && (n <=? 122)%nat).

Definition is_alpha (c : ascii) : bool := is_upper c || is_lower c.

Definition is_alnum (c : ascii) : bool := is_alpha c || is_digit c.

(** Membership in the ASCII part of the regex class [\w]. *)
Definition is_word (c : ascii) : bool := is_alnum c || (c =? "_")%char.

Definition to_lower (c : ascii) : ascii :=
  if is_upper c then ascii_of_nat (nat_of_ascii c + 32) else c.

Definition to_upper (c : ascii) : ascii :=
  if is_lower c then ascii_of_nat (nat_of_ascii c - 32) else c.

Fixpoint str_map (f : ascii -> ascii) (s : string) : string :=
  match s with
  | EmptyString => EmptyString
  | String c r => String (f c) (str_map f r)
  end.

(** [str.lower] *)
Definition lower (s : string) : string := str_map to_lower s.

(** [str.capitalize]: first character upper case, the rest lower case. *)
Definition capitalize (s : string) : string :=
  match s with
  | EmptyString => EmptyString
  | String c r => String (to_upper c) (lower r)
  end.

Fixpoint lstrip_by (p : ascii -> bool) (s : string) : string :=
  match s with
  | EmptyString => EmptyString
  | String c r => if p c then lstrip_by p r else s
  end.

Fixpoint str_rev (s : string) : string :=
  match s with
  | EmptyString => EmptyString
  | String c r => str_rev r ++ String c EmptyString
  end.

(** [str.strip(chars)] for a character class [p]. *)
Definition strip_by (p : ascii -> bool) (s : string) : string :=
  str_rev (lstrip_by p (str_rev (lstrip_by p s))).

(** [str.strip()] *)
Definition strip (s : string) : string := strip_by is_space s.

(** [sep.join(parts)] *)
Fixpoint join (sep : string) (parts : list string) : string :=
  match parts with
  | [] => ""
  | [p] => p
  | p :: ps => p ++ sep ++ join sep ps
  end.

(** [re.split(pattern, s)] for a pattern of the form [[class]+]: the
    pieces between maximal runs of separator characters, with the empty
    pieces produced by a leading or trailing run. *)
Fixpoint re_split_go (sep : ascii -> bool) (s : string) (cur : string)
    (in_run : bool) : list string :=
  match s with
  | EmptyString => [cur]
  | String c r =>
      if sep c then
        if in_run then re_split_go sep r "" true
        else cur :: re_split_go sep r "" true
      else re_split_go sep r (cur ++ String c EmptyString) false
  end.

Definition re_split (sep : ascii -> bool) (s : string) : list string :=
  re_split_go sep s "" false.

(** [str.isidentifier()] restricted to ASCII: a letter or underscore
    followed by letters, digits and underscores. *)
Fixpoint all_chars (p : ascii -> bool) (s : string) : bool :=
  match s with
  | EmptyString => true
  | String c r => p c && all_chars p r
  end.

Definition isidentifier (s : string) : bool :=
  match s with
  | EmptyString => false
  | String c r => (is_alpha c || (c =? "_")%char) && all_chars is_word r
  end.

End Py.

(** ** [adctest/helpers/funs.py]: [str_or_bool] *)
Module Funs.

(** The Python values that reach [str_or_bool]: strings, booleans,
    integers, [None] and opaque objects compared by identity. *)
Inductive pyval :=
| PyStr (s : string)
| PyBool (b : bool)
| PyInt (z : Z)
| PyNone
| PyObj (id : nat).

(** Python [==] on these values; [bool] is a subclass of [int], so
    [True == 1] and [False == 0]. *)
Definition py_eq (a b : pyval) : bool :=
  match a, b with
  | PyStr s, PyStr t => String.eqb s t
  | PyBool x, PyBool y => Bool.eqb x y
  | PyInt x, PyInt y => Z.eqb x y
  | PyBool x, PyInt y | PyInt y, PyBool x => Z.eqb y (if x then 1 else 0)
  | PyNone, PyNone => true
  | PyObj x, PyObj y => Nat.eqb x y
  | _, _ => false
  end.

(** [value in lst] *)
Definition py_in (v : pyval) (l : list pyval) : bool :=
  existsb (fun x => py_eq x v) l.

Definition TRUE_VALUES : list pyval :=
  [PyStr "true"; PyStr "True"; PyStr "1"; PyStr "yes"; PyBool true; PyInt 1].

Definition FALSE_VALUES : list pyval :=
  [PyStr "false"; PyStr "False"; PyStr "0"; PyStr "no"; PyBool false; PyInt 0].

Definition str_or_bool (value : pyval) : pyval :=
  if py_in value TRUE_VALUES then PyBool true
  else if py_in value FALSE_VALUES then PyBool false
  else value.

End Funs.

(** ** [adctest/parser/utils.py]: name formatting of the generator *)
Module NameFormat.
Import Py.

Inductive error := IndexError.

(** Separator class of [r'[-_\W]+'] and of [r'[_\W]+']: on ASCII both
    are exactly the characters that are not letters or digits. *)
Definition sep_dash_us_nonword (c : ascii) : bool :=
  (c =? "-")%char || (c =? "_")%char || negb (is_word c).

Definition sep_us_nonword (c : ascii) : bool :=
  (c =? "_")%char || negb (is_word c).

(** [Utils.format_name_to_python_format]; [name[0]] raises
    [IndexError] on the empty string. *)
Definition format_name_to_python_format (name : string) : error + string :=
  let name := lower name in
  match name with
  | EmptyString => inl IndexError
  | String c _ =>
      let name := if is_digit c then "p" ++ name else name in
      let name_parts := filter (fun n => negb (String.eqb (strip n) ""))
                          (re_split sep_dash_us_nonword name) in
      inr (join "_" name_parts)
  end.

(** [Utils.get_class_name_from_file_name], from the file stem on. *)
Definition get_class_name_from_file_name (stem : string) : error + string :=
  match format_name_to_python_format stem with
  | inl e => inl e
  | inr new_name =>
      let name_parts := filter (fun n => negb (String.eqb (strip n) ""))
                          (re_split sep_us_nonword new_name) in
      inr (String.concat "" (map capitalize name_parts))
  end.

End NameFormat.

(** ** [adctest/helpers/utils.py]: [format_id] and [get_id_from_url] *)
Module UrlId.
Import Py.
















Section Parse.
(** [ipaddress.ip_address(hostname)] is left abstract: whether it
    returns an [IPv6Address] (it raises [ValueError] on a non-address
    and an [IPv4Address] is refused in brackets). *)
Variable ip_address_is_v6 : string -> bool.



Inductive error := ValueError.


(** Percent-decoding ([urllib.parse.unquote]) is left abstract. *)
Variable unquote : string -> string.








End Parse.

End UrlId.

(** ** The page-object runtime: [adctest/pages/base_attributes.py] and
    [adctest/pages/base_abstract.py]

    A page instance owns [_cached_attrs] (attribute name to cached proxy
    or list of proxies) and its instance [__dict__], which holds the
    element descriptors registered by [ListOfElementDescriptor].  Proxies
    ([WebElementProxy]) live in a heap indexed by identity, so that the
    identity of a cached object can be observed.  The browser is
    abstracted as the elements a locator finds, the set of elements still
    attached to the DOM, the open tabs, the current url, and a log of the
    driver calls made. *)
Module Page.
Import Py.

Inductive exc :=
| StaleElementReferenceException
| NoSuchElementException
| OtherWebDriverException
| BasePageException
| PageNotOpened
| WebElementProxyException
| AttributeError.

(** The selenium exceptions, all subclasses of [WebDriverException]. *)
Definition is_webdriver_exc (e : exc) : bool :=
  match e with
  | StaleElementReferenceException | NoSuchElementException
  | OtherWebDriverException => true
  | _ => false
  end.

(** A selenium locator [(by, value)]. *)
Definition locator : Type := string * string.

(** [WebElementProxy]: the wrapped [WebElement] ([_obj]), the locator
    and the page attribute it was created for. *)
Record Proxy := mkProxy {
  p_obj : nat;
  p_locator : locator;
  p_attr_name : option string }.

(** A value of [_cached_attrs]: one proxy or a list of proxies. *)
Inductive cval := CProxy (pid : nat) | CList (pids : list nat).

(** [ElementDescriptor] after [__set_name__]. *)
Record ElementDescriptor := mkDesc {
  search_by : string;
  value : string;
  many : bool;
  element_name : string }.

(** The result of a forwarded [WebElement] method: which element answered. *)
Inductive result := RFrom (elem : nat) (meth : string).

Inductive event :=
| ESearch (loc : locator)
| ELoad (url : string)
| ESwitch (handle : nat)
| EClose (handle : nat).

(** The page and its browser.  [instance_dict] holds the descriptors
    stored in the page's [__dict__] by [ListOfElementDescriptor]; the
    other entries of that [__dict__] are [page_instance_attrs]. *)
Record State := mkState {
  cached_attrs : gmap string cval;
  instance_dict : gmap string ElementDescriptor;
  proxies : gmap nat Proxy;
  next_pid : nat;
  dom_find : locator -> list nat;
  attached : nat -> bool;
  elem_error : nat -> string -> option exc;
  window_handles : list nat;
  current_handle : nat;
  current_url : string;
  log : list event }.

Definition set_cache (c : gmap string cval) (s : State) : State :=
  mkState c (instance_dict s) (proxies s) (next_pid s) (dom_find s)
    (attached s) (elem_error s) (window_handles s) (current_handle s)
    (current_url s) (log s).


Definition set_proxies (ps : gmap nat Proxy) (n : nat) (s : State) : State :=
  mkState (cached_attrs s) (instance_dict s) ps n (dom_find s)
    (attached s) (elem_error s) (window_handles s) (current_handle s)
    (current_url s) (log s).

Definition set_tabs (hs : list nat) (cur : nat) (s : State) : State :=
  mkState (cached_attrs s) (instance_dict s) (proxies s) (next_pid s)
    (dom_find s) (attached s) (elem_error s) hs cur (current_url s) (log s).

Definition set_url (u : string) (s : State) : State :=
  mkState (cached_attrs s) (instance_dict s) (proxies s) (next_pid s)
    (dom_find s) (attached s) (elem_error s) (window_handles s)
    (current_handle s) u (log s).

Definition add_log (e : event) (s : State) : State :=
  mkState (cached_attrs s) (instance_dict s) (proxies s) (next_pid s)
    (dom_find s) (attached s) (elem_error s) (window_handles s)
    (current_handle s) (current_url s) (log s ++ [e]).

(** A state and exception monad for the methods. *)
Definition M (A : Type) : Type := State -> State * (exc + A).

Definition ret {A} (a : A) : M A := fun s => (s, inr a).
Definition raise {A} (e : exc) : M A := fun s => (s, inl e).
Definition bind {A B} (m : M A) (k : A -> M B) : M B :=
  fun s => match m s with
           | (s', inl e) => (s', inl e)
           | (s', inr a) => k a s'
           end.
Definition get : M State := fun s => (s, inr s).
Definition modify (f : State -> State) : M unit := fun s => (f s, inr tt).
(** [try: m except e: h(e)] *)
Definition catch {A} (m : M A) (h : exc -> M A) : M A :=
  fun s => match m s with
           | (s', inl e) => h e s'
           | r => r
           end.

Notation "'let!' x := m 'in' k" := (bind m (fun x => k))
  (at level 200, x name, m at level 100, k at level 200).
Notation "m ;; k" := (bind m (fun _ => k)) (at level 100, right associativity).

Fixpoint mapM {A B} (f : A -> M B) (l : list A) : M (list B) :=
  match l with
  | [] => ret []
  | x :: xs => let! y := f x in let! ys := mapM f xs in ret (y :: ys)
  end.

(** Python truthiness of an optional attribute name. *)
Definition truthy_name (n : option string) : option string :=
  match n with
  | Some a => if String.eqb a "" then None else Some a
  | None => None
  end.

Section Runtime.
(** [check_opened] is abstract in [AbstractBasePage]; both
    implementations only read the current url and return or raise. *)
Variable check_opened : State -> bool.
(** [wait_page_loaded] is abstract too. *)
Variable wait_page_loaded : M unit.

(** [page.check_opened()] *)
Definition check_opened_m : M unit :=
  let! s := get in if check_opened s then ret tt else raise PageNotOpened.

(** [AbstractBasePage._find_element]: [driver.find_element] raises
    [NoSuchElementException] when nothing matches. *)
Definition _find_element (loc : locator) : M nat :=
  modify (add_log (ESearch loc)) ;;
  let! s := get in
  match dom_find s loc with
  | [] => raise NoSuchElementException
  | e :: _ => ret e
  end.

(** [AbstractBasePage._find_elements] *)
Definition _find_elements (loc : locator) : M (list nat) :=
  modify (add_log (ESearch loc)) ;;
  let! s := get in
  match dom_find s loc with
  | [] => raise BasePageException
  | es => ret es
  end.

(** [WebElementProxy(page, by, value, target_object, attr_name)]:
    a fresh proxy object. *)
Definition new_proxy (target : nat) (loc : locator) (attr : option string) : M nat :=
  let! s := get in
  let pid := next_pid s in
  modify (set_proxies (<[pid := mkProxy target loc attr]> (proxies s)) (S pid)) ;;
  ret pid.

(** [ElementDescriptor._search_element] *)
Definition _search_element (d : ElementDescriptor) : M cval :=
  let loc := (search_by d, value d) in
  if many d then
    let! elements := _find_elements loc in
    let! pids := mapM (fun item => new_proxy item loc (Some (element_name d))) elements in
    ret (CList pids)
  else
    let! web_element := _find_element loc in
    let! pid := new_proxy web_element loc (Some (element_name d)) in
    ret (CProxy pid).

(** [ElementDescriptor.__get__(page)]; a cached value is never [None],
    so [cached_attrs.get(name) is None] means the name is absent. *)
Definition descriptor_get (d : ElementDescriptor) : M cval :=
  check_opened_m ;;
  let! s := get in
  match cached_attrs s !! element_name d with
  | Some v => ret v
  | None =>
      let! v := _search_element d in
      let! s' := get in
      modify (set_cache (<[element_name d := v]> (cached_attrs s'))) ;;
      ret v
  end.

(** Calling a method of the wrapped [WebElement]: a detached element
    raises [StaleElementReferenceException]. *)
Definition invoke (e : nat) (meth : string) : M result :=
  let! s := get in
  if attached s e then
    match elem_error s e meth with
    | Some ex => raise ex
    | None => ret (RFrom e meth)
    end
  else raise StaleElementReferenceException.

Definition lookup_proxy (pid : nat) : M Proxy :=
  let! s := get in
  match proxies s !! pid with
  | Some p => ret p
  | None => raise AttributeError
  end.

(** [WebElementProxy._reload_target_object] *)
Definition _reload_target_object (pid : nat) : M unit :=
  let! p := lookup_proxy pid in
  let! s := get in
  (match truthy_name (p_attr_name p) with
   | Some a =>
       if bool_decide (is_Some (cached_attrs s !! a))
       then modify (set_cache (delete a (cached_attrs s)))
       else ret tt
   | None => ret tt
   end) ;;
  let! obj := _find_element (p_locator p) in
  let! s := get in
  modify (set_proxies (<[pid := mkProxy obj (p_locator p) (p_attr_name p)]> (proxies s))
                      (next_pid s)) ;;
  match truthy_name (p_attr_name p) with
  | Some a => let! s := get in modify (set_cache (<[a := CProxy pid]> (cached_attrs s)))
  | None => ret tt
  end.

(** [catch_not_attach_to_session(proxy)(function)]: the wrapper. *)
Definition catch_not_attach_to_session {A} (pid : nat) (function : M A) : M A :=
  catch function (fun ex =>
    match ex with
    | StaleElementReferenceException => _reload_target_object pid ;; function
    | NoSuchElementException => raise NoSuchElementException
    | e => if is_webdriver_exc e then raise WebElementProxyException else raise e
    end).

(** [proxy.meth()] for a method not defined by [WebElementProxy]:
    [__getattribute__] takes the bound method [getattr(self._obj, meth)]
    of the currently wrapped element and returns it decorated. *)
Definition call_forwarded (pid : nat) (meth : string) : M result :=
  let! p := lookup_proxy pid in
  let function := invoke (p_obj p) meth in
  catch_not_attach_to_session pid function.

(** [driver.get(url)] *)
Definition driver_get (url : string) : M unit :=
  modify (set_url url) ;; modify (add_log (ELoad url)).

(** [AbstractBasePage._open] *)
Definition _open (url : string) : M unit :=
  modify (set_cache ∅) ;;
  driver_get url ;;
  wait_page_loaded.

(** [AbstractBasePage.open_redirect_url] *)
Definition open_redirect_url (url : string) : M unit :=
  modify (set_cache ∅) ;;
  driver_get url.

(** [driver.switch_to.window(handle)] *)
Definition switch_to_window (h : nat) : M unit :=
  let! s := get in
  modify (set_tabs (window_handles s) h) ;; modify (add_log (ESwitch h)).

(** [driver.close()]: closes the current tab. *)
Definition driver_close : M unit :=
  let! s := get in
  let h := current_handle s in
  modify (set_tabs (List.remove Nat.eq_dec h (window_handles s)) h) ;;
  modify (add_log (EClose h)).

(** [AbstractBasePage._close_tabs] *)
Fixpoint _close_tabs (tabs : list nat) : M unit :=
  match tabs with
  | [] => ret tt
  | handle :: rest => switch_to_window handle ;; driver_close ;; _close_tabs rest
  end.

(** [AbstractBasePage.focus_on_last_opened_tab] *)
Definition focus_on_last_opened_tab : M unit :=
  let! s := get in
  if (1 <? length (window_handles s))%nat then
    modify (set_cache ∅) ;;
    let all_tabs := window_handles s in
    let tab_to_focus := List.last all_tabs 0%nat in
    _close_tabs (List.removelast all_tabs) ;;
    switch_to_window tab_to_focus
  else ret tt.

(** [AbstractBasePage.focus_on_first_opened_tab] *)
Definition focus_on_first_opened_tab : M unit :=
  let! s := get in
  if (1 <? length (window_handles s))%nat then
    modify (set_cache ∅) ;;
    let all_tabs := window_handles s in
    let tab_to_focus := List.hd 0%nat all_tabs in
    _close_tabs (List.tl all_tabs) ;;
    switch_to_window tab_to_focus
  else ret tt.

(** *** [ListOfElementDescriptor] *)


Fixpoint z_digits (fuel : nat) (z : Z) (acc : string) : string :=
  match fuel with
  | O => acc
  | S f =>
      let acc' := String (ascii_of_nat (48 + Z.to_nat (z mod 10))) acc in
      if (z <? 10)%Z then acc' else z_digits f (z / 10) acc'
  end.

Definition str_of_Z (z : Z) : string :=
  let fuel := S (S (Z.to_nat (Z.log2 (Z.abs z)))) in
  if (z <? 0)%Z then "-" ++ z_digits fuel (- z) "" else z_digits fuel z "".










(** The properties of the page's class (at least those of
    [AbstractBasePage]); in this code base none has a setter. *)
Variable class_properties : list string.








End Runtime.

End Page.

(** ** [adctest/pages/uicomponents/helpers/parsers.py] *)
Module Parsers.
Import Py.

(** An lxml [HtmlElement]: tag, [.text] (the text before the first
    child, [None] when absent), [.items()] and [.iterchildren()]. *)
#[warnings="-register-all"]
Inductive node :=
| Node (tag : string) (text : option string) (attrs : list (string * string))
       (children : list node).

Definition tag_of (n : node) : string := let 'Node t _ _ _ := n in t.
Definition text_of (n : node) : option string := let 'Node _ x _ _ := n in x.
Definition items (n : node) : list (string * string) := let 'Node _ _ a _ := n in a.
Definition iterchildren (n : node) : list node := let 'Node _ _ _ c := n in c.

Inductive error := ValueError.

Definition HEAD_COLUMN_TAG : string := "th".

(** [text.replace('\n', '')] *)
Fixpoint remove_newlines (s : string) : string :=
  match s with
  | EmptyString => EmptyString
  | String c r => if (nat_of_ascii c =? 10)%nat then remove_newlines r
                  else String c (remove_newlines r)
  end.

(** [format_tag_text]: [None] becomes [str(None)], that is ["None"]. *)
Definition format_tag_text (text : option string) : string :=
  let text := match text with Some t => t | None => "None" end in
  remove_newlines (strip text).

(** The [tr_element] selection of [parse_table_thead]. *)
Definition find_tr (parsed_head : node) : option node :=
  if String.eqb (tag_of parsed_head) "div" then
    List.find (fun item => String.eqb (tag_of item) "tr") (iterchildren parsed_head)
  else if String.eqb (tag_of parsed_head) "tr" then Some parsed_head
  else None.

Abbreviation res_t := (gmap string (gmap string nat)).

(** [res[name][value] = index] on a [defaultdict(dict)]. *)
Definition set2 (res : res_t) (name value : string) (index : nat) : res_t :=
  <[name := <[value := index]> (default ∅ (res !! name))]> res.

Definition lookup2 (res : res_t) (name value : string) : option nat :=
  res !! name ≫= lookup value.

Definition mem (name : string) (attributes : list string) : bool :=
  existsb (String.eqb name) attributes.

(** [for name, value in item.items(): if value and name in attributes: ...] *)
Fixpoint add_attrs (attributes : list string) (index : nat)
    (its : list (string * string)) (res : res_t) : res_t :=
  match its with
  | [] => res
  | (name, value) :: rest =>
      let res := if negb (String.eqb value "") && mem name attributes
                 then set2 res name value index else res in
      add_attrs attributes index rest res
  end.

(** The loop over [tr_element.iterchildren()]. *)
Fixpoint parse_ths (tag_text_key : string) (attributes : list string)
    (children : list node) (index : nat) (res : res_t) : error + res_t :=
  match children with
  | [] => inr res
  | item :: rest =>
      if String.eqb (tag_of item) HEAD_COLUMN_TAG then
        let formatted_key := format_tag_text (text_of item) in
        if bool_decide (is_Some (lookup2 res tag_text_key formatted_key))
        then inl ValueError
        else
          let res := set2 res tag_text_key formatted_key index in
          let res := match attributes with
                     | [] => res
                     | _ => add_attrs attributes index (items item) res
                     end in
          parse_ths tag_text_key attributes rest (S index) res
      else parse_ths tag_text_key attributes rest index res
  end.

(** [parse_table_thead], from the parsed [head] on. *)
Definition parse_table_thead (parsed_head : node) (tag_text_key : string)
    (attributes : list string) : error + res_t :=
  match find_tr parsed_head with
  | None => inl ValueError
  | Some tr_element => parse_ths tag_text_key attributes (iterchildren tr_element) 1 ∅
  end.

(** The [th] children of a row and their formatted texts. *)
Definition ths (tr : node) : list node :=
  filter (fun n => String.eqb (tag_of n) HEAD_COLUMN_TAG) (iterchildren tr).

Definition th_keys (tr : node) : list string := map (fun n => format_tag_text (text_of n)) (ths tr).

End Parsers.

(** ** [adctest/pages/uicomponents/table.py]: columns and their cells *)
Module TableCol.
Import Py Parsers.

Inductive exc := BaseTableException.

(** [Column] after construction: visible name and, for
    [SearchBy.attribute_name], the attribute name and value. *)
Record Column := mkColumn {
  visible_name : string;
  search_attr_name : option string;
  search_attr_value : option string }.

(** The table state used by a column: the header parsed by
    [_parse_header] ([columns_indexes]) and the rows of the table,
    each row being the [iterchildren()] of one [tr] in document order. *)
Record Table := mkTable {
  columns_indexes : res_t;
  _head_tag_text_key : string;
  rows : list (list node) }.

(** [Table.get_column_index]; an attribute lookup that misses yields
    Python [None]. *)
Definition get_column_index (t : Table) (column : Column) : exc + option nat :=
  match search_attr_value column with
  | Some v =>
      if String.eqb v "" then
        match lookup2 (columns_indexes t) (_head_tag_text_key t) (visible_name column) with
        | Some (S i) => inr (Some (S i))
        | _ => inl BaseTableException
        end
      else inr (lookup2 (columns_indexes t) (default "" (search_attr_name column)) v)
  | None =>
      match lookup2 (columns_indexes t) (_head_tag_text_key t) (visible_name column) with
      | Some (S i) => inr (Some (S i))
      | _ => inl BaseTableException
      end
  end.

(** The XPath 1.0 expressions that occur in the predicate built by
    [r_xpath_column_cells_contains_text]. *)
Inductive xexpr :=
| XContainsText (t : string)   (** [contains(text(),"t")] *)
| XNum (n : nat)               (** a number literal *)
| XNonePath                    (** [None]: the child path [child::None] *)
| XAnd (a b : xexpr).

Definition str_of_nat (n : nat) : string := Page.str_of_Z (Z.of_nat n).

Fixpoint render (e : xexpr) : string :=
  match e with
  | XContainsText t => "contains(text()," ++ dq ++ t ++ dq ++ ")"
  | XNum n => str_of_nat n
  | XNonePath => "None"
  | XAnd a b => render a ++ " and " ++ render b
  end.

Definition r_xpath_rows : string := "//tr".
Definition r_xpath_cells : string := "/td".

Definition index_expr (column_index : option nat) : xexpr :=
  match column_index with Some n => XNum n | None => XNonePath end.

(** [Table.r_xpath_column_cells_contains_text], as text ... *)
Definition r_xpath_column_cells_contains_text (column_index : option nat) (text : string) : string :=
  r_xpath_rows ++ r_xpath_cells ++ "[contains(text()," ++ dq ++ text ++ dq ++ ") and "
    ++ match column_index with Some n => str_of_nat n | None => "None" end ++ "]".

(** ... and as the predicate it places on the [td] step. *)
Definition column_cells_contains_text_pred (column_index : option nat) (text : string) : xexpr :=
  XAnd (XContainsText text) (index_expr column_index).

Definition str_contains (s t : string) : bool :=
  match String.index 0 t s with Some _ => true | None => false end.

(** XPath [boolean()] of an expression evaluated at a [td] node:
    [text()] is its first text node ([""] when it has none), a number
    is true when non-zero, a node-set when non-empty. *)
Fixpoint xbool (cell : node) (e : xexpr) : bool :=
  match e with
  | XContainsText t => str_contains (default "" (text_of cell)) t
  | XNum n => negb (n =? 0)%nat
  | XNonePath => existsb (fun c => String.eqb (tag_of c) "None") (iterchildren cell)
  | XAnd a b => xbool cell a && xbool cell b
  end.

(** An XPath predicate: a number compares with the context position,
    anything else is converted with [boolean()]. *)
Definition pred_holds (pos : nat) (cell : node) (e : xexpr) : bool :=
  match e with
  | XNum n => (pos =? n)%nat
  | _ => xbool cell e
  end.

(** The cells a [td] step of one row selects: [(td position, cell)]. *)
Fixpoint td_step (cells : list node) (pos : nat) (e : xexpr) : list nat :=
  match cells with
  | [] => []
  | c :: rest =>
      if String.eqb (tag_of c) "td" then
        (if pred_holds pos c e then [pos] else []) ++ td_step rest (S pos) e
      else td_step rest pos e
  end.

(** [//tr/td[e]] on the table: the selected cells as (row, position)
    pairs, rows and positions counted from 1, in document order. *)
Fixpoint eval_rows_td (rs : list (list node)) (r : nat) (e : xexpr) : list (nat * nat) :=
  match rs with
  | [] => []
  | row :: rest => map (fun p => (r, p)) (td_step row 1 e) ++ eval_rows_td rest (S r) e
  end.

(** [Table._find_column_cells_by_visible_text], the cells of
    [get_items_by_xpath] given by their coordinates. *)
Definition _find_column_cells_by_visible_text (t : Table) (column : Column) (text : string)
    : exc + list (nat * nat) :=
  match get_column_index t column with
  | inl e => inl e
  | inr col_index =>
      inr (eval_rows_td (rows t) 1 (column_cells_contains_text_pred col_index text))
  end.

(** [Column.__call__(search_value)] *)
Definition column_call (t : Table) (column : Column) (search_value : string) : exc + list (nat * nat) :=
  _find_column_cells_by_visible_text t column search_value.

(** The cells of the table at column position [n] whose first text
    contains [text]: what a column search is meant to return. *)
Definition column_cells_containing (t : Table) (n : nat) (text : string) : list (nat * nat) :=
  filter (fun rc => (snd rc =? n)%nat)
    (eval_rows_td (rows t) 1 (XContainsText text)).

End TableCol.

(** ** [adctest/pages/base.py]: [BasePageMeta.__new__] and
    [adctest/helpers/utils.py]: [get_parents_classes_attrs]

    Class attribute values are Python objects; lists live in a heap so
    that a list shared by several class dictionaries is one object. *)
Module PageMeta.

Inductive val :=
| VStr (s : string)
| VNone
| VBool (b : bool)
| VList (loc : nat)
| VCallable (id : nat)
| VObj (id : nat).

Definition heap : Type := gmap nat (list val).

Definition dict : Type := list (string * val).

Inductive exc := BasePageException | AttributeError | TypeError.

Definition truthy (h : heap) (v : val) : bool :=
  match v with
  | VStr s => negb (String.eqb s "")
  | VNone => false
  | VBool b => b
  | VList l => match h !! l with Some (_ :: _) => true | _ => false end
  | VCallable _ | VObj _ => true
  end.

Definition callable (v : val) : bool :=
  match v with VCallable _ => true | _ => false end.

Definition is_dunder (k : string) : bool := String.prefix "__" k.

(** [d[k] = v] on an insertion-ordered dict. *)
Fixpoint dict_set (d : dict) (k : string) (v : val) : dict :=
  match d with
  | [] => [(k, v)]
  | (k', v') :: rest =>
      if String.eqb k k' then (k, v) :: rest else (k', v') :: dict_set rest k v
  end.

(** [d.update(other)] *)
Definition dict_update (d other : dict) : dict :=
  fold_left (fun acc kv => dict_set acc (fst kv) (snd kv)) other d.

Definition dict_get (d : dict) (k : string) : option val :=
  option_map snd (List.find (fun kv => String.eqb (fst kv) k) d).

(** [d.pop(k, None)]: the value, and the dict without [k]. *)
Definition dict_pop (d : dict) (k : string) : option val * dict :=
  (dict_get d k, filter (fun kv => negb (String.eqb (fst kv) k)) d).

(** A class is given by its own [__dict__]. *)
Record cls := mkCls { cls_dict : dict }.

(** [get_parents_classes_attrs(bases)] *)
Definition get_parents_classes_attrs (bases : list cls) : dict :=
  let attrs_dict := fold_left (fun acc c => dict_update acc (cls_dict c)) (rev bases) [] in
  filter (fun kv => negb (is_dunder (fst kv)) && negb (callable (snd kv))) attrs_dict.

(** [config.BASE_APP_CONFIG]: app name to its config dict. *)
Definition app_configs : Type := list (string * dict).

Section Meta.
(** [urllib.parse.urljoin] is left abstract. *)
Variable urljoin : string -> string -> string.

Definition join_val (base : string) (v : val) : exc + val :=
  match v with VStr u => inr (VStr (urljoin base u)) | _ => inl TypeError end.

Fixpoint join_all (base : string) (vs : list val) : exc + list val :=
  match vs with
  | [] => inr []
  | v :: rest =>
      match join_val base v, join_all base rest with
      | inr v', inr rest' => inr (v' :: rest')
      | inl e, _ | _, inl e => inl e
      end
  end.

Definition fresh (h : heap) : nat := S (max_list (map fst (map_to_list h))).

Definition LOADER_ATTRS : list string :=
  ["page_loader_css_class"; "table_loader_css_class"; "modal_visible_css_class"].

(** The loop over the three loader attributes. *)
Fixpoint take_loaders (h : heap) (app_config : dict) (names : list string)
    (all_attrs new_attrs : dict) : exc + (dict * dict) :=
  match names with
  | [] => inr (all_attrs, new_attrs)
  | attr_name :: rest =>
      let (own, all_attrs) := dict_pop all_attrs attr_name in
      let value := match own with
                   | Some v => if truthy h v then Some v else dict_get app_config attr_name
                   | None => dict_get app_config attr_name
                   end in
      match value with
      | None | Some VNone => inl BasePageException
      | Some v => take_loaders h app_config rest all_attrs (dict_set new_attrs attr_name v)
      end
  end.

(** [BasePageMeta.__new__(mcs, class_name, bases, attrs)]: the new
    class and the heap after the call. *)
Definition base_page_meta_new (cfg : app_configs) (h : heap) (bases : list cls)
    (attrs : dict) : exc + (cls * heap) :=
  let all_attrs := dict_update (get_parents_classes_attrs bases) attrs in
  let (app_name, all_attrs) := dict_pop all_attrs "app_name" in
  match app_name with
  | None => inl BasePageException
  | Some app_name =>
  if negb (truthy h app_name) then inl BasePageException else
  let app_config := match app_name with
                    | VStr a => option_map snd (List.find (fun p => String.eqb (fst p) a) cfg)
                    | _ => None
                    end in
  match app_config with
  | None => inl AttributeError  (* [None.get('base_url')] *)
  | Some app_config =>
  match dict_get app_config "base_url" with
  | Some (VStr base_url) =>
    if String.eqb base_url "" then inl BasePageException else
    let new_attrs := [("_base_url", VStr base_url)] in
    let (page_url, all_attrs) := dict_pop all_attrs "page_url" in
    match page_url with
    | None | Some VNone => inl BasePageException
    | Some page_url =>
    match join_val base_url page_url with
    | inl e => inl e
    | inr joined_page_url =>
    let new_attrs := dict_set new_attrs "page_url" joined_page_url in
    let (valid_urls, all_attrs) := dict_pop all_attrs "valid_urls" in
    (* [valid_urls.append(page_url)] mutates the popped list in place;
       the default [[]] is a fresh list. *)
    let appended : exc + (list val * heap) :=
      match valid_urls with
      | None => inr ([page_url], h)
      | Some (VList l) =>
          let cur := default [] (h !! l) in
          inr ((cur ++ [page_url])%list, <[l := (cur ++ [page_url])%list]> h)
      | Some _ => inl AttributeError
      end in
    match appended with
    | inl e => inl e
    | inr (urls, h) =>
    match join_all base_url urls with
    | inl e => inl e
    | inr joined =>
    let l := fresh h in
    let h := <[l := joined]> h in
    let new_attrs := dict_set new_attrs "valid_urls" (VList l) in
    let new_attrs := dict_set new_attrs "has_page_ready_script"
                       (default (VBool false) (dict_get app_config "has_page_ready_script")) in
    match take_loaders h app_config LOADER_ATTRS all_attrs new_attrs with
    | inl e => inl e
    | inr (all_attrs, new_attrs) =>
        inr (mkCls (dict_update new_attrs all_attrs), h)
    end end end end end
  | Some v => if truthy h v then inl TypeError else inl BasePageException
  | None => inl BasePageException
  end end end.
End Meta.

End PageMeta.

(** * Theorems *)

Module FunsFacts.
Import Funs.

Lemma py_in_true_not_false (v : pyval) :
  py_in v TRUE_VALUES = true -> py_in v FALSE_VALUES = false.
Proof.
  intros H. unfold py_in in *. apply existsb_exists in H as [x [Hin Heq]].
  simpl in Hin.
  repeat (destruct Hin as [<- | Hin]); try contradiction;
    destruct v; cbn [py_eq] in Heq; try discriminate;
    try (apply String.eqb_eq in Heq; subst; reflexivity);
    try (apply Z.eqb_eq in Heq; subst; reflexivity);
    try (destruct b; cbn in Heq; try discriminate; reflexivity).
Qed.

(** C9: [str_or_bool] maps the members (in the sense of Python [in])
    of [TRUE_VALUES] to [True], those of [FALSE_VALUES] to [False],
    returns every other value unchanged, and is idempotent. *)
Theorem str_or_bool_spec :
  (forall v, py_in v TRUE_VALUES = true -> str_or_bool v = PyBool true) /\
  (forall v, py_in v FALSE_VALUES = true -> str_or_bool v = PyBool false) /\
  (forall v, py_in v TRUE_VALUES = false -> py_in v FALSE_VALUES = false ->
             str_or_bool v = v) /\
  (forall v, str_or_bool (str_or_bool v) = str_or_bool v).
Proof.
  split; [|split; [|split]].
  - intros v H. unfold str_or_bool. now rewrite H.
  - intros v H. unfold str_or_bool.
    destruct (py_in v TRUE_VALUES) eqn:E.
    + apply py_in_true_not_false in E. congruence.
    + now rewrite H.
  - intros v H1 H2. unfold str_or_bool. now rewrite H1, H2.
  - intros v.
    destruct (py_in v TRUE_VALUES) eqn:E1.
    + assert (H : str_or_bool v = PyBool true) by (unfold str_or_bool; now rewrite E1).
      now rewrite H.
    + destruct (py_in v FALSE_VALUES) eqn:E2.
      * assert (H : str_or_bool v = PyBool false)
          by (unfold str_or_bool; now rewrite E1, E2).
        now rewrite H.
      * assert (H : str_or_bool v = v) by (unfold str_or_bool; now rewrite E1, E2).
        now rewrite !H.
Qed.

Lemma str_or_bool_spec_witness :
  py_in (PyInt 1) TRUE_VALUES = true /\ str_or_bool (PyInt 1) = PyBool true /\
  py_in (PyStr "no") FALSE_VALUES = true /\ str_or_bool (PyStr "no") = PyBool false /\
  str_or_bool (PyStr "maybe") = PyStr "maybe".
Proof.
  destruct str_or_bool_spec as [H1 [H2 [H3 _]]].
  split; [reflexivity|]. split; [apply H1; reflexivity|].
  split; [reflexivity|]. split; [apply H2; reflexivity|].
  apply H3; reflexivity.
Defined.

End FunsFacts.

Module NameFormatFacts.
Import Py NameFormat.

(** C8: a file stem that starts with a separator followed by a digit,
    as [_404.component] (from [_404.component.html]), yields module and
    class names that start with a digit: the digit test looks at the
    first character before the separators are removed. *)
Theorem format_name_leading_separator_digit :
  format_name_to_python_format "_404.component" = inr "404_component" /\
  isidentifier "404_component" = false /\
  get_class_name_from_file_name "_404.component" = inr "404Component" /\
  isidentifier "404Component" = false /\
  format_name_to_python_format "---" = inr "" /\
  isidentifier "" = false.
Proof. vm_compute. repeat split. Qed.

(** The digit guard does its job when the digit comes first. *)
Lemma format_name_digit_first :
  format_name_to_python_format "404.component" = inr "p404_component" /\
  isidentifier "p404_component" = true.
Proof. vm_compute. split; reflexivity. Qed.

End NameFormatFacts.

Module UrlIdFacts.
Import Py UrlId.











End UrlIdFacts.

Module PageFacts.
Import Py Page.

Lemma close_tabs_keeps_cache (tabs : list nat) (s : State) :
  snd (_close_tabs tabs s) = inr tt /\ cached_attrs (fst (_close_tabs tabs s)) = cached_attrs s.
Proof.
  revert s. induction tabs as [|h tabs IH]; intros s; [split; reflexivity|].
  simpl. unfold bind, switch_to_window, driver_close, bind, get, modify. simpl.
  destruct (IH (add_log (EClose h)
                  (set_tabs (List.remove Nat.eq_dec h (window_handles s)) h
                     (add_log (ESwitch h) (set_tabs (window_handles s) h s)))))
    as [H1 H2].
  destruct (_close_tabs tabs _) as [s' r] eqn:E. simpl in *. subst r. split; [reflexivity|].
  rewrite H2. reflexivity.
Qed.

(** C3: [_open] and [open_redirect_url] empty [_cached_attrs] and then
    load the url (the driver call happens in a state whose cache is
    empty, and [_open] waits afterwards); the two focus methods empty
    the cache when more than one tab is open and change nothing when
    exactly one is. *)
Theorem navigation_resets_cache (wait_page_loaded : M unit) (s : State) (url : string) :
  _open wait_page_loaded url s
    = wait_page_loaded (add_log (ELoad url) (set_url url (set_cache ∅ s))) /\
  open_redirect_url url s = (add_log (ELoad url) (set_url url (set_cache ∅ s)), inr tt) /\
  cached_attrs (add_log (ELoad url) (set_url url (set_cache ∅ s))) = ∅ /\
  (1 < length (window_handles s) ->
     snd (focus_on_last_opened_tab s) = inr tt /\
     cached_attrs (fst (focus_on_last_opened_tab s)) = ∅ /\
     snd (focus_on_first_opened_tab s) = inr tt /\
     cached_attrs (fst (focus_on_first_opened_tab s)) = ∅) /\
  (length (window_handles s) = 1 ->
     focus_on_last_opened_tab s = (s, inr tt) /\ focus_on_first_opened_tab s = (s, inr tt)).
Proof.
  split; [reflexivity|]. split; [reflexivity|]. split; [reflexivity|]. split.
  - intros Hlen. apply Nat.ltb_lt in Hlen.
    unfold focus_on_last_opened_tab, focus_on_first_opened_tab, bind, get, modify.
    rewrite Hlen.
    destruct (close_tabs_keeps_cache (List.removelast (window_handles s)) (set_cache ∅ s))
      as [A1 A2].
    destruct (close_tabs_keeps_cache (List.tl (window_handles s)) (set_cache ∅ s))
      as [B1 B2].
    destruct (_close_tabs (List.removelast _) _) as [s1 r1].
    destruct (_close_tabs (List.tl _) _) as [s2 r2].
    simpl in *. subst r1 r2. repeat split; assumption.
  - intros Hlen.
    unfold focus_on_last_opened_tab, focus_on_first_opened_tab, bind, get.
    rewrite Hlen. split; reflexivity.
Qed.

Definition two_tabs : State :=
  mkState {[ "save" := CProxy 0 ]} ∅ ∅ 0 (fun _ => []) (fun _ => true)
    (fun _ _ => None) [1; 2] 1 "http://example.com/a" [].

Lemma navigation_resets_cache_witness :
  1 < length (window_handles two_tabs) /\
  cached_attrs (fst (focus_on_last_opened_tab two_tabs)) = ∅ /\
  focus_on_first_opened_tab (set_tabs [1] 1 two_tabs) = (set_tabs [1] 1 two_tabs, inr tt).
Proof.
  pose proof (navigation_resets_cache (ret tt) two_tabs "u") as [_ [_ [_ [H1 _]]]].
  pose proof (navigation_resets_cache (ret tt) (set_tabs [1] 1 two_tabs) "u")
    as [_ [_ [_ [_ H2]]]].
  split; [simpl; lia|]. split.
  - apply H1. simpl. lia.
  - apply H2. reflexivity.
Defined.

(** *** Re-attachment of a stale element *)

(** The retry of the wrapper calls the bound method captured before the
    reload, that is the method of the element wrapped at call time. *)
Lemma call_forwarded_retry_on_captured (pid : nat) (p : Proxy) (meth : string)
    (s s' : State) :
  proxies s !! pid = Some p ->
  invoke (p_obj p) meth s = (s, inl StaleElementReferenceException) ->
  _reload_target_object pid s = (s', inr tt) ->
  call_forwarded pid meth s = invoke (p_obj p) meth s'.
Proof.
  intros Hp Hinv Hrel.
  unfold call_forwarded, catch_not_attach_to_session, catch, bind at 1, lookup_proxy,
    bind at 1, get.
  rewrite Hp. simpl. rewrite Hinv. unfold bind. rewrite Hrel. reflexivity.
Qed.

(** [_reload_target_object] keeps the proxy identity, replaces the
    wrapped element by the first one its locator finds, and puts the
    proxy back under its attribute name. *)
Lemma reload_target_object_spec (pid : nat) (p : Proxy) (s : State) (e : nat) (es : list nat) :
  proxies s !! pid = Some p ->
  dom_find s (p_locator p) = e :: es ->
  exists s', _reload_target_object pid s = (s', inr tt) /\
    proxies s' = <[pid := mkProxy e (p_locator p) (p_attr_name p)]> (proxies s) /\
    log s' = (log s ++ [ESearch (p_locator p)])%list /\
    (forall a, truthy_name (p_attr_name p) = Some a ->
       cached_attrs s' = <[a := CProxy pid]> (cached_attrs s)) /\
    (truthy_name (p_attr_name p) = None -> cached_attrs s' = cached_attrs s).
Proof.
  intros Hp Hf.
  unfold _reload_target_object, lookup_proxy, bind, get, modify, _find_element.
  rewrite Hp. cbn.
  destruct (truthy_name (p_attr_name p)) as [a|] eqn:Ha.
  - destruct (bool_decide (is_Some (cached_attrs s !! a))) eqn:Hc.
    + cbn. rewrite Hf. cbn. eexists. split; [reflexivity|].
      split; [reflexivity|]. split; [reflexivity|]. split; [|discriminate].
      intros a' Ha'. inversion Ha'; subst a'. cbn. apply insert_delete_eq.
    + cbn. rewrite Hf. cbn. eexists. split; [reflexivity|].
      split; [reflexivity|]. split; [reflexivity|]. split; [|discriminate].
      intros a' Ha'. inversion Ha'; subst a'. reflexivity.
  - cbn. rewrite Hf. cbn. eexists. split; [reflexivity|].
    split; [reflexivity|]. split; [reflexivity|]. split; [discriminate|reflexivity].
Qed.

Definition save_locator : locator :=
  ("xpath", "//*[@data-e2e=" ++ dq ++ "save" ++ dq ++ "]").

(** A page whose [save] element (proxy 0, wrapping element 1) was
    re-rendered: element 1 is detached and the locator now finds the
    attached element 2. *)
Definition stale_state : State :=
  mkState {[ "save" := CProxy 0 ]} ∅ {[ 0 := mkProxy 1 save_locator (Some "save") ]} 1
    (fun _ => [2]) (fun e => (e =? 2)%nat) (fun _ _ => None) [7] 7
    "http://example.com/a" [].

(** C1: on a stale element, a forwarded call such as
    [proxy.get_attribute(...)] re-finds the element, stores it in the
    same proxy and puts the proxy back in the cache, but its retry
    calls the method bound to the detached element again and raises
    [StaleElementReferenceException], although the re-found element
    answers. *)
Theorem forwarded_call_retries_on_stale_element :
  snd (call_forwarded 0 "get_attribute" stale_state) = inl StaleElementReferenceException /\
  proxies (fst (call_forwarded 0 "get_attribute" stale_state)) !! 0
    = Some (mkProxy 2 save_locator (Some "save")) /\
  cached_attrs (fst (call_forwarded 0 "get_attribute" stale_state)) !! "save"
    = Some (CProxy 0) /\
  snd (invoke 2 "get_attribute" (fst (call_forwarded 0 "get_attribute" stale_state)))
    = inr (RFrom 2 "get_attribute").
Proof. vm_compute. repeat split. Qed.

(** *** Lazy resolution and caching of [ElementDescriptor] *)

Lemma mapM_new_proxy_spec (loc : locator) (a : option string) (es : list nat) (s : State) :
  exists s' pids,
    mapM (fun item => new_proxy item loc a) es s = (s', inr pids) /\
    map (fun pid => proxies s' !! pid) pids = map (fun e => Some (mkProxy e loc a)) es /\
    cached_attrs s' = cached_attrs s /\ log s' = log s /\ dom_find s' = dom_find s /\
    next_pid s <= next_pid s' /\
    (forall pid, pid < next_pid s -> proxies s' !! pid = proxies s !! pid).
Proof.
  revert s. induction es as [|e es IH]; intros s.
  - exists s, []. repeat split; auto.
  - set (s1 := set_proxies (<[next_pid s := mkProxy e loc a]> (proxies s)) (S (next_pid s)) s).
    destruct (IH s1) as (s' & pids & Hrun & Hmap & Hc & Hl & Hd & Hn & Hpres).
    exists s', (next_pid s :: pids).
    assert (Hstep : mapM (fun item => new_proxy item loc a) (e :: es) s
                    = (s', inr (next_pid s :: pids))).
    { assert (Hnp : new_proxy e loc a s = (s1, inr (next_pid s))) by reflexivity.
      change (bind (new_proxy e loc a)
                (fun y => bind (mapM (fun item => new_proxy item loc a) es)
                               (fun ys => ret (y :: ys))) s
              = (s', inr (next_pid s :: pids))).
      unfold bind at 1. rewrite Hnp. unfold bind. rewrite Hrun. reflexivity. }
    split; [exact Hstep|].
    simpl in Hn. split; [|split; [|split; [|split; [|split]]]].
    + simpl. rewrite Hmap. f_equal.
      rewrite Hpres by (simpl; lia). simpl. apply lookup_insert_eq.
    + rewrite Hc. reflexivity.
    + rewrite Hl. reflexivity.
    + rewrite Hd. reflexivity.
    + lia.
    + intros pid Hlt. rewrite Hpres by (simpl; lia). simpl.
      apply lookup_insert_ne. lia.
Qed.

(** What a successful search stores: proxies of the elements the
    descriptor's locator finds, created for its attribute name. *)
Definition found_by (s : State) (d : ElementDescriptor) (v : cval) : Prop :=
  let loc := (search_by d, value d) in
  if many d then
    exists pids, v = CList pids /\ dom_find s loc <> [] /\
      map (fun pid => proxies s !! pid) pids
        = map (fun e => Some (mkProxy e loc (Some (element_name d)))) (dom_find s loc)
  else
    exists pid e es, v = CProxy pid /\ dom_find s loc = e :: es /\
      proxies s !! pid = Some (mkProxy e loc (Some (element_name d))).

Lemma descriptor_get_hit (check_opened : State -> bool) (d : ElementDescriptor)
    (s : State) (v : cval) :
  check_opened s = true -> cached_attrs s !! element_name d = Some v ->
  descriptor_get check_opened d s = (s, inr v).
Proof.
  intros Hc Hv. unfold descriptor_get, check_opened_m, bind, get, ret.
  cbv beta. rewrite Hc. cbv beta iota. rewrite Hv. reflexivity.
Qed.

Lemma descriptor_get_miss (check_opened : State -> bool) (d : ElementDescriptor)
    (s : State) :
  check_opened s = true -> cached_attrs s !! element_name d = None ->
  descriptor_get check_opened d s =
    match _search_element d s with
    | (s1, inl e) => (s1, inl e)
    | (s1, inr v) => (set_cache (<[element_name d := v]> (cached_attrs s1)) s1, inr v)
    end.
Proof.
  intros Hc Hn. unfold descriptor_get, check_opened_m, bind, get, ret, modify.
  cbv beta. rewrite Hc. cbv beta iota. rewrite Hn. cbv beta iota.
  destruct (_search_element d s) as [s1 [e|v]]; reflexivity.
Qed.

Lemma search_element_none (d : ElementDescriptor) (s : State) :
  dom_find s (search_by d, value d) = [] ->
  _search_element d s = (add_log (ESearch (search_by d, value d)) s,
                         inl (if many d then BasePageException else NoSuchElementException)).
Proof.
  intros Hf. unfold _search_element, _find_elements, _find_element, bind, get, modify.
  destruct (many d); cbn; rewrite Hf; reflexivity.
Qed.

Lemma search_element_single (d : ElementDescriptor) (s : State) (e : nat) (es : list nat) :
  many d = false -> dom_find s (search_by d, value d) = e :: es ->
  _search_element d s =
    (set_proxies (<[next_pid s := mkProxy e (search_by d, value d) (Some (element_name d))]>
                    (proxies s)) (S (next_pid s))
       (add_log (ESearch (search_by d, value d)) s),
     inr (CProxy (next_pid s))).
Proof.
  intros Hm Hf. unfold _search_element, _find_element, new_proxy, bind, get, modify, ret.
  rewrite Hm. cbn. rewrite Hf. reflexivity.
Qed.

Lemma search_element_many (d : ElementDescriptor) (s : State) (e : nat) (es : list nat) :
  many d = true -> dom_find s (search_by d, value d) = e :: es ->
  exists s2 pids, _search_element d s = (s2, inr (CList pids)) /\
    map (fun pid => proxies s2 !! pid) pids
      = map (fun e => Some (mkProxy e (search_by d, value d) (Some (element_name d)))) (e :: es) /\
    cached_attrs s2 = cached_attrs s /\
    log s2 = (log s ++ [ESearch (search_by d, value d)])%list /\ dom_find s2 = dom_find s.
Proof.
  intros Hm Hf.
  destruct (mapM_new_proxy_spec (search_by d, value d) (Some (element_name d))
              (e :: es) (add_log (ESearch (search_by d, value d)) s))
    as (s2 & pids & Hrun & Hmap & Hc2 & Hl2 & Hd2 & _ & _).
  exists s2, pids. split; [|split; [exact Hmap|split; [exact Hc2|split; [exact Hl2|exact Hd2]]]].
  assert (Hfe : _find_elements (search_by d, value d) s
                = (add_log (ESearch (search_by d, value d)) s, inr (e :: es))).
  { unfold _find_elements, bind, get, modify. cbn. rewrite Hf. reflexivity. }
  unfold _search_element. rewrite Hm. cbv zeta.
  unfold bind at 1. rewrite Hfe. unfold bind at 1. rewrite Hrun. reflexivity.
Qed.

(** C2: [ElementDescriptor.__get__] first runs [check_opened]; on a
    cache hit it returns the cached object unchanged, without any driver
    call; on a miss it searches once with the descriptor's locator,
    wraps the found element (or, with [many], every found element) in a
    new proxy, stores the result in [_cached_attrs], and a later access
    returns that same object without searching. *)
Theorem descriptor_get_spec (check_opened : State -> bool) (d : ElementDescriptor)
    (s : State) :
  (check_opened s = false -> descriptor_get check_opened d s = (s, inl PageNotOpened)) /\
  (check_opened s = true -> forall v, cached_attrs s !! element_name d = Some v ->
     descriptor_get check_opened d s = (s, inr v)) /\
  (check_opened s = true -> cached_attrs s !! element_name d = None ->
     exists s' r, descriptor_get check_opened d s = (s', r) /\
       log s' = (log s ++ [ESearch (search_by d, value d)])%list /\
       match r with
       | inr v =>
           cached_attrs s' = <[element_name d := v]> (cached_attrs s) /\ found_by s' d v /\
           (check_opened s' = true -> descriptor_get check_opened d s' = (s', inr v))
       | inl e =>
           cached_attrs s' = cached_attrs s /\ dom_find s (search_by d, value d) = [] /\
           e = (if many d then BasePageException else NoSuchElementException)
       end).
Proof.
  split; [|split].
  - intros Hc. unfold descriptor_get, check_opened_m, bind, get, raise.
    cbv beta. rewrite Hc. reflexivity.
  - intros Hc v Hv. now apply descriptor_get_hit.
  - intros Hc Hnone. rewrite (descriptor_get_miss _ _ _ Hc Hnone).
    destruct (dom_find s (search_by d, value d)) as [|e0 es0] eqn:Hf.
    + rewrite (search_element_none _ _ Hf).
      eexists. eexists. split; [reflexivity|]. repeat split; auto.
    + destruct (many d) eqn:Hm.
      * destruct (search_element_many d s e0 es0 Hm Hf)
          as (s2 & pids & Hrun & Hmap & Hc2 & Hl2 & Hd2).
        rewrite Hrun. eexists. eexists. split; [reflexivity|].
        split; [exact Hl2|]. split; [cbn; rewrite Hc2; reflexivity|]. split.
        -- unfold found_by. rewrite Hm. exists pids. cbn. rewrite Hd2, Hf.
           split; [reflexivity|]. split; [discriminate|]. exact Hmap.
        -- intros Hc'. apply descriptor_get_hit; [exact Hc'|]. cbn. apply lookup_insert_eq.
      * rewrite (search_element_single d s e0 es0 Hm Hf).
        eexists. eexists. split; [reflexivity|].
        split; [reflexivity|]. split; [reflexivity|]. split.
        -- unfold found_by. rewrite Hm. cbn. rewrite Hf.
           exists (next_pid s), e0, es0. split; [reflexivity|].
           split; [reflexivity|]. apply lookup_insert_eq.
        -- intros Hc'. apply descriptor_get_hit; [exact Hc'|]. cbn. apply lookup_insert_eq.
Qed.

(** A page whose [title] descriptor has not been read yet. *)
Definition title_desc : ElementDescriptor :=
  mkDesc "xpath" ("//*[@data-e2e=" ++ dq ++ "title" ++ dq ++ "]") false "title".

Definition fresh_page : State :=
  mkState ∅ ∅ ∅ 0 (fun _ => [3]) (fun _ => true) (fun _ _ => None) [1] 1
    "http://example.com/a" [].

Lemma descriptor_get_spec_witness :
  exists s' r, descriptor_get (fun _ => true) title_desc fresh_page = (s', r) /\
    log s' = [ESearch ("xpath", "//*[@data-e2e=" ++ dq ++ "title" ++ dq ++ "]")].
Proof.
  destruct (descriptor_get_spec (fun _ => true) title_desc fresh_page) as [_ [_ H3]].
  destruct (H3 eq_refl eq_refl) as (s' & r & Hrun & Hlog & _).
  exists s', r. split; [exact Hrun|]. rewrite Hlog. reflexivity.
Defined.

(** *** Descriptors of [ListOfElementDescriptor] *)

Lemma join_pair (sep p v : string) : join sep [p; v] = p ++ sep ++ v.
Proof. reflexivity. Qed.










End PageFacts.

Module ParsersFacts.
Import Py Parsers.

Lemma set2_lookup (res : res_t) (a b : string) (i : nat) (n v : string) :
  lookup2 (set2 res a b i) n v
    = if String.eqb a n && String.eqb b v then Some i else lookup2 res n v.
Proof.
  unfold lookup2, set2.
  destruct (String.eqb_spec a n) as [<-|Hne]; cbn [andb].
  - rewrite lookup_insert_eq. cbn.
    destruct (String.eqb_spec b v) as [<-|Hbv].
    + rewrite lookup_insert_eq. reflexivity.
    + rewrite lookup_insert_ne by congruence. destruct (res !! a); reflexivity.
  - rewrite lookup_insert_ne by congruence. reflexivity.
Qed.

Lemma mem_In (name : string) (attributes : list string) :
  mem name attributes = true <-> In name attributes.
Proof.
  unfold mem. rewrite existsb_exists. split.
  - intros [x [Hx Heq]]. apply String.eqb_eq in Heq. subst. exact Hx.
  - intros H. exists name. split; [exact H|]. apply String.eqb_refl.
Qed.

(** The entries [add_attrs] writes: [res[name][value] = index] for the
    attributes of the item with a non-empty value and a listed name. *)
Lemma add_attrs_lookup (attributes : list string) (index : nat)
    (its : list (string * string)) (res : res_t) (n v : string) :
  lookup2 (add_attrs attributes index its res) n v
    = if negb (String.eqb v "") && mem n attributes
         && existsb (fun '(a, b) => String.eqb a n && String.eqb b v) its
      then Some index else lookup2 res n v.
Proof.
  revert res. induction its as [|[a b] rest IH]; intros res.
  - cbn. rewrite !andb_false_r. reflexivity.
  - cbn [add_attrs]. rewrite IH. cbn [existsb].
    destruct (negb (String.eqb v "") && mem n attributes) eqn:Hv;
      [|cbn [andb]; rewrite ?Hv;
        destruct (negb (String.eqb b "") && mem a attributes) eqn:Hb; [|reflexivity];
        rewrite set2_lookup;
        destruct (String.eqb_spec a n) as [<-|]; [|reflexivity];
        destruct (String.eqb_spec b v) as [<-|]; [|reflexivity];
        cbn; congruence].
    cbn [andb].
    destruct (String.eqb_spec a n) as [<-|Han]; destruct (String.eqb_spec b v) as [<-|Hbv];
      cbn [andb orb]; try reflexivity.
    + apply andb_prop in Hv as [Hv1 Hv2]. rewrite Hv1, Hv2. cbn [andb].
      rewrite set2_lookup, !String.eqb_refl. cbn.
      destruct existsb; reflexivity.
    + destruct existsb; [reflexivity|].
      destruct (negb (String.eqb b "") && mem a attributes); [|reflexivity].
      rewrite set2_lookup, String.eqb_refl. cbn.
      apply String.eqb_neq in Hbv. rewrite Hbv. reflexivity.
    + destruct existsb; [reflexivity|].
      destruct (negb (String.eqb b "") && mem a attributes); [|reflexivity].
      rewrite set2_lookup. apply String.eqb_neq in Han. rewrite Han. reflexivity.
    + destruct existsb; [reflexivity|].
      destruct (negb (String.eqb b "") && mem a attributes); [|reflexivity].
      rewrite set2_lookup. apply String.eqb_neq in Han. rewrite Han. reflexivity.
Qed.

Lemma existsb_pair_In (n v : string) (its : list (string * string)) :
  existsb (fun '(a, b) => String.eqb a n && String.eqb b v) its = true <-> In (n, v) its.
Proof.
  rewrite existsb_exists. split.
  - intros [[a b] [Hin Heq]]. apply andb_prop in Heq as [Ha Hb].
    apply String.eqb_eq in Ha, Hb. subst. exact Hin.
  - intros H. exists (n, v). split; [exact H|]. now rewrite !String.eqb_refl.
Qed.

Lemma add_attrs_nil (index : nat) (its : list (string * string)) (res : res_t) :
  add_attrs [] index its res = res.
Proof.
  revert res. induction its as [|[a b] rest IH]; intros res; [reflexivity|].
  cbn [add_attrs]. rewrite andb_false_r. apply IH.
Qed.

Lemma attributes_match (attributes : list string) (index : nat)
    (its : list (string * string)) (res : res_t) :
  match attributes with [] => res | _ => add_attrs attributes index its res end
    = add_attrs attributes index its res.
Proof. destruct attributes; [symmetry; apply add_attrs_nil | reflexivity]. Qed.

Lemma add_attrs_other (attributes : list string) (index : nat)
    (its : list (string * string)) (res : res_t) (name : string) :
  ~ In name attributes -> add_attrs attributes index its res !! name = res !! name.
Proof.
  intros Hn. revert res. induction its as [|[a b] rest IH]; intros res; [reflexivity|].
  cbn [add_attrs]. rewrite IH.
  destruct (negb (String.eqb b "") && mem a attributes) eqn:Hab; [|reflexivity].
  apply andb_prop in Hab as [_ Ha]. apply mem_In in Ha.
  unfold set2. rewrite lookup_insert_ne; [reflexivity|]. intros ->. contradiction.
Qed.

Lemma add_attrs_key (attributes : list string) (index : nat)
    (its : list (string * string)) (res : res_t) (key k : string) :
  ~ In key attributes -> lookup2 (add_attrs attributes index its res) key k = lookup2 res key k.
Proof.
  intros Hk. rewrite add_attrs_lookup.
  destruct (mem key attributes) eqn:Hm.
  - apply mem_In in Hm. contradiction.
  - rewrite andb_false_r. reflexivity.
Qed.

(** The [th] children of a list of children, and their keys. *)
Definition thl (children : list node) : list node :=
  filter (fun n => String.eqb (tag_of n) HEAD_COLUMN_TAG) children.

Definition keys_of (children : list node) : list string :=
  map (fun n => format_tag_text (text_of n)) (thl children).

Lemma In_lookup_list {A} (l : list A) (x : A) : In x l <-> exists i, l !! i = Some x.
Proof. rewrite <- list_elem_of_In. apply list_elem_of_lookup. Qed.

(** The invariant of the loop over [tr_element.iterchildren()]. *)
Lemma parse_ths_inr (key : string) (attributes : list string) (children : list node)
    (index : nat) (res res' : res_t) :
  ~ In key attributes ->
  parse_ths key attributes children index res = inr res' ->
  NoDup (keys_of children) /\
  (forall k, In k (keys_of children) -> lookup2 res key k = None) /\
  (forall k n, lookup2 res' key k = Some n <->
     (exists i, n = index + i /\ keys_of children !! i = Some k) \/ lookup2 res key k = Some n) /\
  (forall name v n, name <> key -> lookup2 res' name v = Some n ->
     (v <> "" /\ In name attributes /\
      exists i th, n = index + i /\ thl children !! i = Some th /\ In (name, v) (items th))
     \/ lookup2 res name v = Some n) /\
  (forall name v i th, name <> key -> v <> "" -> In name attributes ->
     thl children !! i = Some th -> In (name, v) (items th) ->
     (forall j th', i < j -> thl children !! j = Some th' -> ~ In (name, v) (items th')) ->
     lookup2 res' name v = Some (index + i)) /\
  (forall name v, name <> key ->
     (forall th, In th (thl children) -> ~ In (name, v) (items th)) ->
     lookup2 res' name v = lookup2 res name v) /\
  (forall name, name <> key -> ~ In name attributes -> res' !! name = res !! name).
Proof.
  intros Hka. revert index res.
  induction children as [|c rest IH]; intros index res Hrun.
  - cbn in Hrun. injection Hrun as <-.
    unfold keys_of, thl. cbn.
    split; [constructor|]. split; [intros k []|]. split.
    { intros k n. split; [intros H; right; exact H|].
      intros [[i [_ Hi]]|H]; [rewrite lookup_nil in Hi; discriminate|exact H]. }
    split; [intros; right; assumption|]. split.
    { intros name v i th _ _ _ Hi. rewrite lookup_nil in Hi. discriminate. }
    split; reflexivity.
  - cbn [parse_ths] in Hrun.
    destruct (String.eqb (tag_of c) HEAD_COLUMN_TAG) eqn:Hth.
    2: { assert (Ht : thl (c :: rest) = thl rest) by (unfold thl; cbn; now rewrite Hth).
         assert (Hk : keys_of (c :: rest) = keys_of rest) by (unfold keys_of; now rewrite Ht).
         rewrite Hk, Ht. exact (IH index res Hrun). }
    assert (Ht : thl (c :: rest) = c :: thl rest) by (unfold thl; cbn; now rewrite Hth).
    set (fk := format_tag_text (text_of c)) in *.
    assert (Hk : keys_of (c :: rest) = fk :: keys_of rest) by (unfold keys_of; now rewrite Ht).
    rewrite Hk, Ht.
    destruct (bool_decide (is_Some (lookup2 res key fk))) eqn:Hdup; [discriminate|].
    apply bool_decide_eq_false in Hdup.
    assert (Hfk : lookup2 res key fk = None)
      by (destruct (lookup2 res key fk); [exfalso; apply Hdup; eexists; reflexivity|reflexivity]).
    rewrite attributes_match in Hrun.
    set (res1 := add_attrs attributes index (items c) (set2 res key fk index)) in *.
    destruct (IH (S index) res1 Hrun) as (Hnd & Hfresh & Hkey & Hsound & Hcomp & Hunch & Hoth).
    assert (Hres1k : forall k, lookup2 res1 key k
                               = if String.eqb fk k then Some index else lookup2 res key k).
    { intros k. subst res1. rewrite add_attrs_key by exact Hka.
      rewrite set2_lookup, String.eqb_refl. reflexivity. }
    assert (Hres1n : forall name v, name <> key ->
              lookup2 res1 name v
              = if negb (String.eqb v "") && mem name attributes
                   && existsb (fun '(a, b) => String.eqb a name && String.eqb b v) (items c)
                then Some index else lookup2 res name v).
    { intros name v Hne. subst res1. rewrite add_attrs_lookup, set2_lookup.
      apply String.eqb_neq in Hne. rewrite String.eqb_sym in Hne. now rewrite Hne. }
    split; [|split; [|split; [|split; [|split; [|split]]]]].
    + constructor; [|exact Hnd].
      intros Hin. apply list_elem_of_In in Hin. specialize (Hfresh fk Hin). rewrite Hres1k, String.eqb_refl in Hfresh.
      discriminate.
    + intros k [<-|Hin]; [exact Hfk|].
      specialize (Hfresh k Hin). rewrite Hres1k in Hfresh.
      destruct (String.eqb fk k); [discriminate|exact Hfresh].
    + intros k n. rewrite Hkey, Hres1k. split.
      * intros [[i [-> Hi]]|H].
        -- left. exists (S i). split; [lia|exact Hi].
        -- destruct (String.eqb_spec fk k) as [<-|Hne].
           ++ left. exists 0. injection H as <-. split; [lia|reflexivity].
           ++ right. exact H.
      * intros [[[|i] [-> Hi]]|H].
        -- cbn in Hi. injection Hi as <-. right. rewrite String.eqb_refl. f_equal. lia.
        -- left. exists i. split; [lia|exact Hi].
        -- right. destruct (String.eqb_spec fk k) as [<-|Hne]; [congruence|exact H].
    + intros name v n Hne H. destruct (Hsound name v n Hne H) as [(Hv & Hna & i & th & -> & Hi & Hin)|H1].
      * left. split; [exact Hv|]. split; [exact Hna|].
        exists (S i), th. split; [lia|]. split; [exact Hi|exact Hin].
      * rewrite Hres1n in H1 by exact Hne.
        destruct (negb (String.eqb v "") && mem name attributes
                  && existsb (fun '(a, b) => String.eqb a name && String.eqb b v) (items c)) eqn:Hc.
        -- left. apply andb_prop in Hc as [Hc Hex]. apply andb_prop in Hc as [Hv Hm].
           apply negb_true_iff, String.eqb_neq in Hv. apply mem_In in Hm.
           apply existsb_pair_In in Hex. injection H1 as <-.
           split; [exact Hv|]. split; [exact Hm|]. exists 0, c. split; [lia|].
           split; [reflexivity|exact Hex].
        -- right. exact H1.
    + intros name v [|i] th Hne Hv Hna Hi Hin Hlast.
      * cbn in Hi. injection Hi as <-.
        rewrite (Hunch name v Hne);
          [|intros th' Hth' Hin'; apply In_lookup_list in Hth' as [j Hj];
            exact (Hlast (S j) th' ltac:(lia) Hj Hin')].
        rewrite Hres1n by exact Hne.
        apply String.eqb_neq in Hv. rewrite Hv.
        apply mem_In in Hna. rewrite Hna.
        apply existsb_pair_In in Hin. rewrite Hin. f_equal. lia.
      * cbn in Hi. rewrite (Hcomp name v i th Hne Hv Hna Hi Hin).
        -- f_equal. lia.
        -- intros j th' Hj Hj'. exact (Hlast (S j) th' ltac:(lia) Hj').
    + intros name v Hne Hno.
      rewrite (Hunch name v Hne); [|intros th Hth'; apply Hno; right; exact Hth'].
      rewrite Hres1n by exact Hne.
      assert (Hc : existsb (fun '(a, b) => String.eqb a name && String.eqb b v) (items c) = false).
      { destruct existsb eqn:E; [|reflexivity].
        apply existsb_pair_In in E. exfalso. exact (Hno c (or_introl eq_refl) E). }
      rewrite Hc, andb_false_r. reflexivity.
    + intros name Hne Hna. rewrite Hoth by assumption. subst res1.
      rewrite add_attrs_other by exact Hna. unfold set2.
      rewrite lookup_insert_ne by congruence. reflexivity.
Qed.

Lemma parse_ths_total (key : string) (attributes : list string) (children : list node)
    (index : nat) (res : res_t) :
  ~ In key attributes ->
  NoDup (keys_of children) ->
  (forall k, In k (keys_of children) -> lookup2 res key k = None) ->
  exists res', parse_ths key attributes children index res = inr res'.
Proof.
  intros Hka. revert index res.
  induction children as [|c rest IH]; intros index res Hnd Hfresh.
  - exists res. reflexivity.
  - cbn [parse_ths].
    destruct (String.eqb (tag_of c) HEAD_COLUMN_TAG) eqn:Hth.
    2: { assert (Hk : keys_of (c :: rest) = keys_of rest)
           by (unfold keys_of, thl; cbn; now rewrite Hth).
         rewrite Hk in Hnd, Hfresh. exact (IH index res Hnd Hfresh). }
    assert (Hk : keys_of (c :: rest) = format_tag_text (text_of c) :: keys_of rest)
      by (unfold keys_of, thl; cbn; now rewrite Hth).
    rewrite Hk in Hnd, Hfresh.
    rewrite (Hfresh _ (or_introl eq_refl)). cbn [bool_decide is_Some].
    rewrite bool_decide_eq_false_2 by (intros [x Hx]; discriminate).
    rewrite attributes_match.
    inversion Hnd as [|? ? Hnin Hnd']; subst.
    apply IH; [exact Hnd'|].
    intros k Hin. rewrite add_attrs_key by exact Hka. rewrite set2_lookup, String.eqb_refl.
    cbn [andb]. destruct (String.eqb_spec (format_tag_text (text_of c)) k) as [<-|].
    + apply list_elem_of_In in Hin. contradiction.
    + apply Hfresh. right. exact Hin.
Qed.

(** A header whose second [th] has its visible text inside a child and
    shares its [data-e2e] value with the first. *)
Definition head_child_text : node :=
  Node "tr" None []
    [Node "th" (Some " Name ") [("data-e2e", "col")] [];
     Node "th" None [("data-e2e", "col")] [Node "span" (Some "Age") [] []]].

(** A header with distinct visible texts whose first [th] carries an
    attribute named like the visible-text key. *)
Definition head_attr_text : node :=
  Node "tr" None []
    [Node "th" (Some "A") [("text", "B")] [];
     Node "th" (Some "B") [] []].

(** C4, counterexample: a [th] whose text sits in a child has [.text]
    [None] and is keyed ["None"], not by its visible text; of two [th]
    with the same attribute value only the later one is kept; and when
    the visible-text key is also a listed attribute, distinct visible
    texts can raise [ValueError]. *)
Lemma parse_table_thead_keys_differ :
  match parse_table_thead head_child_text "text" ["data-e2e"] with
  | inr res =>
      lookup2 res "text" "Name" = Some 1 /\ lookup2 res "text" "None" = Some 2 /\
      lookup2 res "text" "Age" = None /\ lookup2 res "data-e2e" "col" = Some 2
  | inl _ => False
  end /\
  th_keys head_attr_text = ["A"; "B"] /\
  parse_table_thead head_attr_text "text" ["text"] = inl ValueError.
Proof. vm_compute. repeat split. Qed.

(** C4, as the code does it: without a [tr] the result is
    [ValueError]; when the visible-text key is not one of the listed
    attributes, each [th] child of the [tr] is keyed by its [.text] (the
    text before its first child, ["None"] when absent), stripped and
    with its newlines removed; equal keys raise [ValueError]; distinct
    keys give the 1-based positions of the [th] under the visible-text
    key, and, for each listed attribute and non-empty value, the
    position of the last [th] carrying that value; nothing else is
    stored. *)
Theorem parse_table_thead_spec (parsed_head : node) (tag_text_key : string)
    (attributes : list string) :
  (find_tr parsed_head = None ->
     parse_table_thead parsed_head tag_text_key attributes = inl ValueError) /\
  (~ In tag_text_key attributes -> forall tr, find_tr parsed_head = Some tr ->
     (~ NoDup (th_keys tr) ->
        parse_table_thead parsed_head tag_text_key attributes = inl ValueError) /\
     (NoDup (th_keys tr) ->
        exists res, parse_table_thead parsed_head tag_text_key attributes = inr res /\
          (forall k n, lookup2 res tag_text_key k = Some n <->
                       exists i, n = S i /\ th_keys tr !! i = Some k) /\
          (forall name v n, name <> tag_text_key -> lookup2 res name v = Some n ->
             v <> "" /\ In name attributes /\
             exists i th, n = S i /\ ths tr !! i = Some th /\ In (name, v) (items th)) /\
          (forall name v i th, In name attributes -> v <> "" ->
             ths tr !! i = Some th -> In (name, v) (items th) ->
             (forall j th', i < j -> ths tr !! j = Some th' -> ~ In (name, v) (items th')) ->
             lookup2 res name v = Some (S i)) /\
          (forall name, name <> tag_text_key -> ~ In name attributes -> res !! name = None))).
Proof.
  split.
  - intros Hn. unfold parse_table_thead. rewrite Hn. reflexivity.
  - intros Hka tr Htr. unfold parse_table_thead. rewrite Htr.
    change (th_keys tr) with (keys_of (iterchildren tr)).
    change (ths tr) with (thl (iterchildren tr)).
    split.
    + intros Hnd.
      destruct (parse_ths tag_text_key attributes (iterchildren tr) 1 ∅) as [[]|res] eqn:Hr;
        [reflexivity|].
      exfalso. apply Hnd. exact (proj1 (parse_ths_inr _ _ _ _ _ _ Hka Hr)).
    + intros Hnd.
      destruct (parse_ths_total tag_text_key attributes (iterchildren tr) 1 ∅ Hka Hnd)
        as [res Hr]; [intros; reflexivity|].
      destruct (parse_ths_inr _ _ _ _ _ _ Hka Hr)
        as (_ & _ & Hkey & Hsound & Hcomp & _ & Hoth).
      exists res. split; [exact Hr|]. split; [|split; [|split]].
      * intros k n. rewrite Hkey. split.
        -- intros [[i [-> Hi]]|H]; [exists i; split; [reflexivity|exact Hi]|discriminate].
        -- intros [i [-> Hi]]. left. exists i. split; [reflexivity|exact Hi].
      * intros name v n Hne H.
        destruct (Hsound name v n Hne H) as [(Hv & Hna & i & th & -> & Hi & Hin)|H1];
          [|discriminate].
        split; [exact Hv|]. split; [exact Hna|]. exists i, th. auto.
      * intros name v i th Hna Hv Hi Hin Hlast.
        apply (Hcomp name v i th); try assumption.
        intros ->. contradiction.
      * intros name Hne Hna. rewrite Hoth by assumption. reflexivity.
Qed.

Definition head_ab : node :=
  Node "tr" None []
    [Node "th" (Some "A") [("data-e2e", "a")] []; Node "th" (Some "B") [] []].

Lemma parse_table_thead_spec_witness :
  exists res, parse_table_thead head_ab "text" ["data-e2e"] = inr res /\
    lookup2 res "text" "B" = Some 2 /\ lookup2 res "data-e2e" "a" = Some 1.
Proof.
  assert (Hka : ~ In "text" ["data-e2e"]) by (intros [H|[]]; discriminate).
  assert (Hnd : NoDup (th_keys head_ab)) by (vm_compute; repeat constructor; set_solver).
  destruct (parse_table_thead_spec head_ab "text" ["data-e2e"]) as [_ Hs].
  destruct (Hs Hka head_ab eq_refl) as [_ Hok].
  destruct (Hok Hnd) as (res & Hr & Hk & _ & Hc & _).
  exists res. split; [exact Hr|]. split.
  - apply Hk. exists 1. split; reflexivity.
  - apply (Hc "data-e2e" "a" 0 (Node "th" (Some "A") [("data-e2e", "a")] []));
      [left; reflexivity|discriminate|reflexivity|left; reflexivity|].
    intros [|j] th' Hj Hj'; [lia|]. destruct j; cbn in Hj'; [|discriminate].
    injection Hj' as <-. cbn. intros [].
Defined.
End ParsersFacts.

Module TableColFacts.
Import Py Parsers TableCol.

(** A number other than [0] inside [and] is converted with [boolean()],
    so it does not restrict the position of the [td]. *)
Lemma td_step_and_num (cells : list node) (pos : nat) (text : string) (n : nat) :
  n <> 0 ->
  td_step cells pos (XAnd (XContainsText text) (XNum n))
    = td_step cells pos (XContainsText text).
Proof.
  intros Hn. revert pos. induction cells as [|c rest IH]; intros pos; [reflexivity|].
  cbn [td_step]. destruct (String.eqb (tag_of c) "td"); [|apply IH].
  rewrite IH. f_equal. cbn [pred_holds xbool].
  apply Nat.eqb_neq in Hn. rewrite Hn. cbn. rewrite andb_true_r. reflexivity.
Qed.

Lemma eval_rows_td_and_num (rs : list (list node)) (r : nat) (text : string) (n : nat) :
  n <> 0 ->
  eval_rows_td rs r (XAnd (XContainsText text) (XNum n))
    = eval_rows_td rs r (XContainsText text).
Proof.
  intros Hn. revert r. induction rs as [|row rest IH]; intros r; [reflexivity|].
  cbn [eval_rows_td]. rewrite td_step_and_num by exact Hn. rewrite IH. reflexivity.
Qed.

Definition th (t : string) : node := Node "th" (Some t) [] [].
Definition td (t : string) : node := Node "td" (Some t) [] [].

(** A table with columns [A] and [B] and body rows [x y] and [y x];
    the header row is also a [tr] of the table. *)
Definition table_ab : Table :=
  let head := Node "tr" None [] [th "A"; th "B"] in
  mkTable
    (match parse_table_thead head "text" [] with inr res => res | inl _ => ∅ end)
    "text"
    [iterchildren head; [td "x"; td "y"]; [td "y"; td "x"]].

Definition column_a : Column := mkColumn "A" None None.

(** C5: the XPath [//tr/td[contains(text(),"x") and 1]] reads the
    column index as a boolean, not as a position: whenever the column
    index is resolved, [column(text)] returns every cell of the table
    whose text contains [text], whatever its column.  In [table_ab]
    [column_a("x")] returns the [x] of row 2 (column [A]) and the [x] of
    row 3 (column [B]); the cells of column [A] containing [x] are only
    the first. *)
Theorem column_call_ignores_column_position :
  (forall (t : Table) (column : Column) (text : string) (n : nat),
     get_column_index t column = inr (Some (S n)) ->
     column_call t column text = inr (eval_rows_td (rows t) 1 (XContainsText text))) /\
  r_xpath_column_cells_contains_text (Some 1) "x"
    = "//tr/td[contains(text()," ++ dq ++ "x" ++ dq ++ ") and 1]" /\
  get_column_index table_ab column_a = inr (Some 1) /\
  column_call table_ab column_a "x" = inr [(2, 1); (3, 2)] /\
  column_cells_containing table_ab 1 "x" = [(2, 1)].
Proof.
  split.
  - intros t column text n Hidx.
    unfold column_call, _find_column_cells_by_visible_text. rewrite Hidx.
    unfold column_cells_contains_text_pred, index_expr.
    rewrite eval_rows_td_and_num by discriminate. reflexivity.
  - vm_compute. repeat split.
Qed.

Lemma column_call_ignores_column_position_witness :
  get_column_index table_ab column_a = inr (Some 1) /\
  column_call table_ab column_a "x" = inr (eval_rows_td (rows table_ab) 1 (XContainsText "x")).
Proof.
  split; [vm_compute; reflexivity|].
  apply (proj1 column_call_ignores_column_position table_ab column_a "x" 0).
  vm_compute. reflexivity.
Defined.
End TableColFacts.


Module PageMetaFacts.
Import PageMeta.

(** The own [__dict__] of [BasePage] (its methods as callables, which
    [get_parents_classes_attrs] drops); its [valid_urls] is the list at
    heap location [0]. *)
Definition base_page : cls :=
  mkCls [("app_name", VNone); ("page_url", VNone); ("has_page_ready_script", VBool false);
         ("valid_urls", VList 0); ("page_loader_css_class", VNone);
         ("table_loader_css_class", VNone); ("modal_visible_css_class", VNone);
         ("_base_url", VNone); ("open", VCallable 1)].

Definition base_heap : heap := {[ 0 := [] ]}.

Definition app_cfg : app_configs :=
  [("app", [("base_url", VStr "http://h/"); ("page_loader_css_class", VStr "loader");
            ("table_loader_css_class", VStr "t-loader");
            ("modal_visible_css_class", VStr "modal")])].

Definition page_a : dict := [("app_name", VStr "app"); ("page_url", VStr "a")].
Definition page_b : dict := [("app_name", VStr "app"); ("page_url", VStr "b")].

(** C7: [valid_urls.append(page_url)] appends to the inherited list
    itself.  With [BasePage] as a direct base, building page [a] turns
    the [valid_urls] list of [BasePage] into [["a"]], and page [b],
    built next the same way, gets the valid urls of [a] and [b]
    although it declares none; with an app missing from the config,
    [app_config.get('base_url')] fails on [None] with [AttributeError]
    instead of [BasePageException]. *)
Theorem valid_urls_appended_to_shared_list (urljoin : string -> string -> string) :
  match base_page_meta_new urljoin app_cfg base_heap [base_page] page_a with
  | inr (c1, h1) =>
      h1 !! 0 = Some [VStr "a"] /\
      match base_page_meta_new urljoin app_cfg h1 [base_page] page_b with
      | inr (c2, h2) =>
          dict_get (cls_dict c2) "page_url" = Some (VStr (urljoin "http://h/" "b")) /\
          exists l, dict_get (cls_dict c2) "valid_urls" = Some (VList l) /\
            h2 !! l = Some [VStr (urljoin "http://h/" "a"); VStr (urljoin "http://h/" "b")]
      | inl _ => False
      end
  | inl _ => False
  end /\
  base_page_meta_new urljoin [] base_heap [base_page] page_a = inl AttributeError.
Proof.
  split; [|vm_compute; reflexivity].
  vm_compute. split; [reflexivity|]. split; [reflexivity|].
  exists 2. split; vm_compute; reflexivity.
Qed.
End PageMetaFacts.
